(** * Ingress manifest synthesis of the crane agent (golang/pkg/crane/k8s/ingress.go)

    A shallow embedding of [deployIngress], [deleteIngress], [getTLSConfig]
    and the two annotation strategies, followed by the properties of the
    specification that concern them.

    Go maps with string keys are [gmap string string]; slices are lists;
    [int32] ports are [Z]; the calls that leave the process (client
    acquisition, logging, apply, delete) are recorded in a trace of events by
    a small monad whose computations either return or panic. *)

From Stdlib Require Import ZArith.
From stdpp Require Import gmap strings list fin_maps.

Local Open Scope string_scope.

(* ===================================================================== *)
(** ** Go primitives used by the file *)
(* ===================================================================== *)

Module GoLib.

(** [strings.Join(elems, sep)]. *)
Definition strings_Join (elems : list string) (sep : string) : string :=
  String.concat sep elems.

(** [fmt.Sprint(b)] and [fmt.Sprintf("%v", b)] on a boolean. *)
Definition fmt_Sprint (b : bool) : string := if b then "true" else "false".

(** [maps.Copy(dst, src)]: [for k, v := range src { dst[k] = v }]. *)
Definition maps_Copy (dst src : gmap string string) : gmap string string :=
  map_fold (λ k v acc, <[k := v]> acc) dst src.

(** Go's [error] values as this file meets them: the ones it builds itself
    with [errors.New] / [fmt.Errorf], and the ones handed back by the
    Kubernetes client library. *)
Inductive error : Type :=
| errorString (msg : string)
| clientError (reason : string).

Definition errors_New (msg : string) : error := errorString msg.
Definition fmt_Errorf (msg : string) : error := errorString msg.

(** What a goroutine can panic with here. *)
Inductive panic : Type :=
| PanicError (e : error)          (* panic(err) *)
| NilPointerDereference           (* method call or field read through nil *)
| IndexOutOfRange.                (* s[i] with i >= len(s) *)

End GoLib.
Export GoLib.

(** Modelled from the spec: [util.JoinV] of golang/internal/util is not among
    the sources; the specification describes its results as the items joined
    with the separator (the host is ingressName, a dot, the root; the secret
    name is the container name, a dash, tls). *)
Definition JoinV (separator : string) (items : list string) : string :=
  strings_Join items separator.

(* ===================================================================== *)
(** ** Data model *)
(* ===================================================================== *)

Definition clusterIssuerDefault : string := "letsencrypt-prod".

Record DeployIngressOptions : Type := {
  namespace : string;
  containerName : string;
  ingressName : string;
  ingressHost : string;
  uploadLimit : string;
  ports : list Z;
  tls : bool;
  proxyHeaders : bool;
  allowedHeaders : list string;
  labels : gmap string string;
  annotations : gmap string string;
  traefik : bool
}.

(** The fields of [config.Configuration] read by this file. *)
Record Configuration : Type := {
  IngressRootDomain : string;
  FieldManagerName : string;
  ForceOnConflicts : bool
}.

(** The apply configurations of k8s.io/client-go that the file fills in. *)
Inductive PathType : Type :=
| PathTypeExact
| PathTypePrefix
| PathTypeImplementationSpecific.

Record IngressServiceBackend : Type := {
  ServiceName : string;
  ServicePortNumber : Z
}.

Record HTTPIngressPath : Type := {
  Path : string;
  PathTypeOf : PathType;
  Backend : IngressServiceBackend
}.

Record IngressRule : Type := {
  Host : string;
  HTTPPaths : list HTTPIngressPath
}.

Record IngressTLS : Type := {
  Hosts : list string;
  SecretName : string
}.

Record IngressSpec : Type := {
  Rules : list IngressRule;
  TLS : list IngressTLS
}.

Record IngressApplyConfiguration : Type := {
  Kind : string;
  APIVersion : string;
  Name : string;
  Annotations : gmap string string;
  Labels : gmap string string;
  Spec : IngressSpec
}.

Record ApplyOptions : Type := {
  FieldManager : string;
  Force : bool
}.

(** The part of the [v1.Ingress] returned by the store that is read back. *)
Record Ingress : Type := {
  ObjectMeta_Name : string
}.

(* ===================================================================== *)
(** ** Pure builders *)
(* ===================================================================== *)

(** [getTLSConfig]: a nil pointer is [None]. *)
Definition getTLSConfig (ingressPath containerName : string) (enabled : bool)
  : option IngressTLS :=
  if enabled then
    Some {| Hosts := [ingressPath];
            SecretName := JoinV "-" [containerName; "tls"] |}
  else None.

Definition getTraefikHeadersAnnotations (opts : DeployIngressOptions)
  : gmap string string :=
  let traefikClass := "traefik" in
  let annotations : gmap string string := ∅ in
  let annotations := <["kubernetes.io/ingress.class" := traefikClass]> annotations in
  if tls opts then
    let annotations :=
      <["traefik.ingress.kubernetes.io/router.entrypoints" := "web,websecure"]> annotations in
    let annotations :=
      <["acme.cert-manager.io/http01-ingress-class" := traefikClass]> annotations in
    let annotations :=
      <["traefik.ingress.kubernetes.io/router.tls" := fmt_Sprint true]> annotations in
    let annotations := <["kubernetes.io/tls-acme" := fmt_Sprint true]> annotations in
    let annotations := <["cert-manager.io/cluster-issuer" := clusterIssuerDefault]> annotations in
    annotations
  else
    let annotations :=
      <["traefik.ingress.kubernetes.io/router.entrypoints" := "web"]> annotations in
    annotations.

Definition extraHeaders : list string :=
  ["X-Forwarded-For"; "X-Forwarded-Host"; "X-Forwarded-Server"; "X-Real-IP";
   "X-Requested-With"].

Definition getNginxHeadersAnnotations (opts : DeployIngressOptions)
  : gmap string string :=
  let annotations : gmap string string := ∅ in
  let headers : list string := [] in
  let annotations :=
    if tls opts then
      <["cert-manager.io/cluster-issuer" := clusterIssuerDefault]>
        (<["kubernetes.io/tls-acme" := fmt_Sprint true]> annotations)
    else annotations in
  let annotations := <["kubernetes.io/ingress.class" := "nginx"]> annotations in
  let headers :=
    if (0 <? length (allowedHeaders opts))%nat then allowedHeaders opts else headers in
  let '(headers, annotations) :=
    if proxyHeaders opts then
      ((headers ++ extraHeaders)%list,
       <["nginx.ingress.kubernetes.io/proxy-buffer-size" := "256k"]>
         (<["nginx.ingress.kubernetes.io/proxy-buffering" := "on"]>
            (<["nginx.ingress.kubernetes.io/enable-cors" := "true"]> annotations)))
    else (headers, annotations) in
  let annotations :=
    if (0 <? length headers)%nat then
      <["nginx.ingress.kubernetes.io/cors-allow-headers" := strings_Join headers ", "]>
        annotations
    else annotations in
  let annotations :=
    if negb (String.eqb (uploadLimit opts) "") then
      <["nginx.ingress.kubernetes.io/proxy-body-size" := uploadLimit opts]> annotations
    else annotations in
  annotations.

Definition getIngressAnnotations (opts : DeployIngressOptions) : gmap string string :=
  if traefik opts then getTraefikHeadersAnnotations opts
  else getNginxHeadersAnnotations opts.

(* ===================================================================== *)
(** ** Calls that leave the process *)
(* ===================================================================== *)

(** What the remote ingress store answers.  [Apply] hands back a
    pointer to the stored ingress and an error, either of which may be nil. *)
Record Clientset : Type := {
  ApplyResult : string → IngressApplyConfiguration → ApplyOptions
                → option Ingress * option error;
  DeleteResult : string → string → option error
}.

(** [networking.IngressInterface] obtained by
    [clientset.NetworkingV1().Ingresses(namespace)]. *)
Record IngressInterface : Type := {
  Store : Clientset;
  InNamespace : string
}.

(** The [Client]: the outcome of [GetClientSet()] and the configuration. *)
Record Client : Type := {
  GetClientSet : Clientset + error;
  Client_appConfig : Configuration
}.

(** The facade object.  Its [ctx] is only passed through to the client
    library and is left out. *)
Record ingress : Type := {
  status : string;
  client : Client;
  appConfig : Configuration
}.

Definition newIngress (client : Client) : ingress :=
  {| status := ""; client := client; appConfig := Client_appConfig client |}.

Inductive event : Type :=
| EvGetClientSet
| EvLogError (err : error) (fields : list string)
| EvApply (ns : string) (cfg : IngressApplyConfiguration) (opts : ApplyOptions)
| EvDelete (ns name : string).

Inductive outcome (A : Type) : Type :=
| Returned (a : A)
| Panicked (p : panic).
Arguments Returned {A} a.
Arguments Panicked {A} p.

Module GoM.

(** A computation extends the trace of events and returns or panics. *)
Definition Go (A : Type) : Type := list event → outcome A * list event.

Definition ret {A} (a : A) : Go A := λ tr, (Returned a, tr).

Definition bind {A B} (m : Go A) (k : A → Go B) : Go B :=
  λ tr, match m tr with
        | (Returned a, tr') => k a tr'
        | (Panicked p, tr') => (Panicked p, tr')
        end.

Definition emit (e : event) : Go unit := λ tr, (Returned tt, tr ++ [e])%list.

Definition raise {A} (p : panic) : Go A := λ tr, (Panicked p, tr).

Definition run {A} (m : Go A) : outcome A * list event := m [].

End GoM.
Import GoM.

#[global] Instance Go_ret : MRet Go := @ret.
#[global] Instance Go_bind : MBind Go := λ A B k m, bind m k.

(** [log.Error().Err(err)...Msg(msg)] / [.Send()]. *)
Definition log_Error (err : error) (fields : list string) : Go unit :=
  emit (EvLogError err fields).

Definition getIngressClient (ing : ingress) (namespace : string)
  : Go (option IngressInterface * option error) :=
  _ ← emit EvGetClientSet;
  match GetClientSet (client ing) with
  | inr err => ret (None, Some err)
  | inl clientset =>
      ret (Some {| Store := clientset; InNamespace := namespace |}, None)
  end.

(** [client.Apply(ctx, applyConfig, opts)]: a method call on a nil interface
    value panics before anything is sent. *)
Definition Apply (client : option IngressInterface)
    (applyConfig : IngressApplyConfiguration) (opts : ApplyOptions)
  : Go (option Ingress * option error) :=
  match client with
  | None => raise NilPointerDereference
  | Some c =>
      _ ← emit (EvApply (InNamespace c) applyConfig opts);
      ret (ApplyResult (Store c) (InNamespace c) applyConfig opts)
  end.

(** [client.Delete(ctx, name, metav1.DeleteOptions{})]. *)
Definition Delete (client : option IngressInterface) (name : string)
  : Go (option error) :=
  match client with
  | None => raise NilPointerDereference
  | Some c =>
      _ ← emit (EvDelete (InNamespace c) name);
      ret (DeleteResult (Store c) (InNamespace c) name)
  end.

(** [s[i]] on a slice. *)
Definition index {A} (s : list A) (i : nat) : Go A :=
  match s !! i with
  | Some x => ret x
  | None => raise IndexOutOfRange
  end.

(** [p.f] through a pointer. *)
Definition deref {A B} (p : option A) (f : A → B) : Go B :=
  match p with
  | Some x => ret (f x)
  | None => raise NilPointerDereference
  end.

(* ===================================================================== *)
(** ** deployIngress and deleteIngress *)
(* ===================================================================== *)

(** Lines 60-67 of [deployIngress]: the routing root, or the error that the
    function returns at that point. *)
Definition ingressRoot (ing : ingress) (options : DeployIngressOptions)
  : string + error :=
  if negb (String.eqb (ingressHost options) "") then
    inl (ingressHost options)
  else if negb (String.eqb (IngressRootDomain (appConfig ing)) "") then
    inl (IngressRootDomain (appConfig ing))
  else
    inr (fmt_Errorf "no ingress domain provided in deploy request or configuration").

(** Lines 69-74: the host of the rule. *)
Definition ingressPath (options : DeployIngressOptions) (root : string) : string :=
  if negb (String.eqb (ingressName options) "") then
    JoinV "." [ingressName options; root]
  else
    JoinV "." [containerName options; namespace options; root].

(** [spec.WithTLS(values...)] appends to the TLS entries. *)
Definition WithTLS (s : IngressSpec) (t : IngressTLS) : IngressSpec :=
  {| Rules := Rules s; TLS := (TLS s ++ [t])%list |}.

(** Lines 76-94: one rule for the host, and the TLS entry when there is one. *)
Definition spec (options : DeployIngressOptions) (host : string) (port0 : Z)
  : IngressSpec :=
  let spec :=
    {| Rules :=
         [ {| Host := host;
              HTTPPaths :=
                [ {| Path := "/";
                     PathTypeOf := PathTypeImplementationSpecific;
                     Backend := {| ServiceName := containerName options;
                                   ServicePortNumber := port0 |} |} ] |} ];
       TLS := [] |} in
  let tlsConf := getTLSConfig host (containerName options) (tls options) in
  match tlsConf with
  | Some t => WithTLS spec t
  | None => spec
  end.

(** Lines 96-108: annotations, labels and the apply configuration. *)
Definition applyConfig (options : DeployIngressOptions) (s : IngressSpec)
  : IngressApplyConfiguration :=
  let annot := getIngressAnnotations options in
  let annot := maps_Copy annot (annotations options) in
  let labels := maps_Copy ∅ (labels options) in
  {| Kind := "Ingress";
     APIVersion := "networking.k8s.io/v1";
     Name := containerName options;
     Annotations := annot;
     Labels := labels;
     Spec := s |}.

(** A nil [options] pointer is [None]. *)
Definition deployIngress (ing : ingress) (options : option DeployIngressOptions)
  : Go (option error) :=
  match options with
  | None => ret (Some (errors_New "ingress deployment is nil"))
  | Some options =>
      '(client, err) ← getIngressClient ing (namespace options);
      _ ← match err with
          | Some e => log_Error e ["Error with ingress client"]
          | None => ret tt
          end;
      if (length (ports options) =? 0)%nat then
        ret (Some (errors_New "empty ports, nothing to expose"))
      else
        match ingressRoot ing options with
        | inr e => ret (Some e)
        | inl root =>
            let host := ingressPath options root in
            port0 ← index (ports options) 0;
            let applyConfig := applyConfig options (spec options host port0) in
            '(ingress, err) ←
              Apply client applyConfig
                {| FieldManager := FieldManagerName (appConfig ing);
                   Force := ForceOnConflicts (appConfig ing) |};
            _ ← match err with
                | Some e =>
                    name ← deref ingress ObjectMeta_Name;
                    log_Error e ["ingress"; name]
                | None => ret tt
                end;
            ret err
        end
  end.

Definition deleteIngress (ing : ingress) (namespace name : string)
  : Go (option error) :=
  '(client, err) ← getIngressClient ing namespace;
  _ ← match err with
      | Some e => raise (PanicError e)
      | None => ret tt
      end;
  Delete client name.

(** ** Observations on a run *)

(** The manifests handed to the store, in order. *)
Fixpoint submitted (tr : list event) : list IngressApplyConfiguration :=
  match tr with
  | [] => []
  | EvApply _ cfg _ :: tr' => cfg :: submitted tr'
  | _ :: tr' => submitted tr'
  end.

(** Calls against the ingress store (apply or delete). *)
Definition isStoreCall (e : event) : bool :=
  match e with
  | EvApply _ _ _ | EvDelete _ _ => true
  | _ => false
  end.

Definition storeCalls (tr : list event) : list event := List.filter isStoreCall tr.

(** Calls against the remote API: the client acquisition as well as the
    calls against the ingress store.  Log entries stay in the process. *)
Definition isRemoteCall (e : event) : bool :=
  match e with
  | EvGetClientSet | EvApply _ _ _ | EvDelete _ _ => true
  | EvLogError _ _ => false
  end.

Definition remoteCalls (tr : list event) : list event := List.filter isRemoteCall tr.

(** The options of the apply call. *)
Definition applyOptions (ing : ingress) : ApplyOptions :=
  {| FieldManager := FieldManagerName (appConfig ing);
     Force := ForceOnConflicts (appConfig ing) |}.

(** The events before the port check: the acquisition, and the log entry
    when it failed. *)
Definition acquisitionEvents (ing : ingress) : list event :=
  match GetClientSet (client ing) with
  | inl _ => [EvGetClientSet]
  | inr e => [EvGetClientSet; EvLogError e ["Error with ingress client"]]
  end.

(** The two configuration errors of [deployIngress]. *)
Definition errEmptyPorts : error := errorString "empty ports, nothing to expose".
Definition errNoDomain : error :=
  errorString "no ingress domain provided in deploy request or configuration".

(** ** Sample inputs *)

Definition sampleConfig : Configuration :=
  {| IngressRootDomain := "example.com";
     FieldManagerName := "crane";
     ForceOnConflicts := true |}.

Definition okStore : Clientset :=
  {| ApplyResult := λ _ cfg _, (Some {| ObjectMeta_Name := Name cfg |}, None);
     DeleteResult := λ _ _, None |}.

Definition okClient : Client :=
  {| GetClientSet := inl okStore; Client_appConfig := sampleConfig |}.

Definition brokenClient : Client :=
  {| GetClientSet := inr (clientError "connection refused");
     Client_appConfig := sampleConfig |}.

Definition sampleOptions : DeployIngressOptions :=
  {| namespace := "prod"; containerName := "web"; ingressName := "";
     ingressHost := ""; uploadLimit := "";
     ports := [8080%Z; 9090%Z];
     tls := true; proxyHeaders := true;
     allowedHeaders := ["X-Custom"];
     labels := ∅; annotations := ∅;
     traefik := false |}.

Definition allowListOptions : DeployIngressOptions :=
  {| namespace := "prod"; containerName := "web"; ingressName := "api";
     ingressHost := "apps.example.org"; uploadLimit := "1m";
     ports := [80%Z];
     tls := false; proxyHeaders := false;
     allowedHeaders := ["X-Custom"; "X-Trace"];
     labels := ∅; annotations := ∅;
     traefik := false |}.

Definition traefikOptions : DeployIngressOptions :=
  {| namespace := "edge"; containerName := "gateway"; ingressName := "";
     ingressHost := ""; uploadLimit := "8m";
     ports := [443%Z];
     tls := false; proxyHeaders := true;
     allowedHeaders := ["X-Custom"];
     labels := ∅; annotations := ∅;
     traefik := true |}.

Definition noPortsOptions : DeployIngressOptions :=
  {| namespace := "prod"; containerName := "web"; ingressName := "";
     ingressHost := "apps.example.org"; uploadLimit := "";
     ports := [];
     tls := true; proxyHeaders := false;
     allowedHeaders := [];
     labels := ∅; annotations := ∅;
     traefik := false |}.

Definition hostOverrideOptions : DeployIngressOptions :=
  {| namespace := "prod"; containerName := "web"; ingressName := "shop";
     ingressHost := "apps.example.org"; uploadLimit := "";
     ports := [8080%Z];
     tls := false; proxyHeaders := false;
     allowedHeaders := [];
     labels := ∅; annotations := ∅;
     traefik := true |}.

(** A store that turns every apply down with a conflict, handing the stored
    object back with the error, and reports every delete as not found. *)
Definition conflictStore : Clientset :=
  {| ApplyResult := λ _ cfg _,
       (Some {| ObjectMeta_Name := Name cfg |}, Some (clientError "conflict"));
     DeleteResult := λ _ _, Some (clientError "not found") |}.

Definition conflictClient : Client :=
  {| GetClientSet := inl conflictStore; Client_appConfig := sampleConfig |}.

(** A store whose failed apply hands back a nil pointer with the error. *)
Definition emptyHandedStore : Clientset :=
  {| ApplyResult := λ _ _ _, (None, Some (clientError "invalid"));
     DeleteResult := λ _ _, None |}.

Definition emptyHandedClient : Client :=
  {| GetClientSet := inl emptyHandedStore; Client_appConfig := sampleConfig |}.

Definition traefikTLSOptions : DeployIngressOptions :=
  {| namespace := "edge"; containerName := "gateway"; ingressName := "";
     ingressHost := ""; uploadLimit := "";
     ports := [443%Z];
     tls := true; proxyHeaders := false;
     allowedHeaders := [];
     labels := ∅; annotations := ∅;
     traefik := true |}.

Definition labelledOptions : DeployIngressOptions :=
  {| namespace := "prod"; containerName := "web"; ingressName := "";
     ingressHost := ""; uploadLimit := "";
     ports := [8080%Z; 9090%Z];
     tls := true; proxyHeaders := false;
     allowedHeaders := [];
     labels := {[ "app" := "web" ]};
     annotations := {[ "cert-manager.io/cluster-issuer" := "internal-ca" ]};
     traefik := false |}.

Definition forwardOnlyOptions : DeployIngressOptions :=
  {| namespace := "prod"; containerName := "web"; ingressName := "";
     ingressHost := ""; uploadLimit := "";
     ports := [8080%Z];
     tls := false; proxyHeaders := true;
     allowedHeaders := [];
     labels := ∅; annotations := ∅;
     traefik := false |}.

(** Every key the nginx strategy can write. *)
Definition nginxKeys : gset string :=
  {[ "kubernetes.io/tls-acme";
     "cert-manager.io/cluster-issuer";
     "kubernetes.io/ingress.class";
     "nginx.ingress.kubernetes.io/enable-cors";
     "nginx.ingress.kubernetes.io/proxy-buffering";
     "nginx.ingress.kubernetes.io/proxy-buffer-size";
     "nginx.ingress.kubernetes.io/cors-allow-headers";
     "nginx.ingress.kubernetes.io/proxy-body-size" ]}.

(** The header list of the nginx strategy: the allow-list, then the
    forwarding headers when [proxyHeaders] is set. *)
Definition corsHeaders (o : DeployIngressOptions) : list string :=
  (allowedHeaders o ++ (if proxyHeaders o then extraHeaders else []))%list.

(** Lookups in a map written as a chain of inserts under literal keys. *)
Ltac lookup_chain :=
  repeat first
    [ rewrite lookup_insert_eq
    | rewrite lookup_insert_ne by discriminate
    | rewrite lookup_empty ];
  try reflexivity.

(** Unfolds a run down to the trace it builds. *)
Ltac run_unfold :=
  unfold run, deployIngress, deleteIngress, getIngressClient, Apply, Delete,
    index, deref, log_Error;
  unfold mbind, Go_bind, bind, emit, raise, ret; simpl.

(* ===================================================================== *)
(** ** Facts about the primitives *)
(* ===================================================================== *)

Section MapsCopy.
Implicit Types dst src : gmap string string.

Lemma maps_Copy_empty dst : maps_Copy dst ∅ = dst.
Proof. unfold maps_Copy. apply map_fold_empty. Qed.

Lemma maps_Copy_insert dst src k v :
  src !! k = None →
  maps_Copy dst (<[k := v]> src) = <[k := v]> (maps_Copy dst src).
Proof.
  intros Hfresh. unfold maps_Copy.
  apply (map_fold_insert_L (λ k v acc, <[k := v]> acc)); [|done].
  intros j1 j2 z1 z2 y Hne _ _. by apply insert_insert_ne.
Qed.

(** The loop of [maps.Copy] computes the union that prefers [src]. *)
Lemma maps_Copy_union dst src : maps_Copy dst src = src ∪ dst.
Proof.
  induction src as [|k v src Hfresh IH] using map_ind.
  - by rewrite maps_Copy_empty, (left_id_L ∅ (∪)).
  - rewrite maps_Copy_insert by done. rewrite IH.
    apply insert_union_l.
Qed.

Lemma maps_Copy_lookup_src dst src k v :
  src !! k = Some v → maps_Copy dst src !! k = Some v.
Proof. intros H. rewrite maps_Copy_union. by apply lookup_union_Some_l. Qed.

Lemma maps_Copy_lookup_dst dst src k :
  src !! k = None → maps_Copy dst src !! k = dst !! k.
Proof. intros H. rewrite maps_Copy_union. by apply lookup_union_r. Qed.
End MapsCopy.

Lemma eqb_empty_false (s : string) : s ≠ "" → String.eqb s "" = false.
Proof. intros H. by apply String.eqb_neq. Qed.

Lemma JoinV_2 sep a b : JoinV sep [a; b] = a +:+ sep +:+ b.
Proof. reflexivity. Qed.

Lemma JoinV_3 sep a b c : JoinV sep [a; b; c] = a +:+ sep +:+ b +:+ sep +:+ c.
Proof. reflexivity. Qed.

(* ===================================================================== *)
(** ** Runs of deployIngress *)
(* ===================================================================== *)

Section Runs.
Variable ing : ingress.
Variable o : DeployIngressOptions.

Lemma acquisitionEvents_quiet :
  submitted (acquisitionEvents ing) = [] ∧ storeCalls (acquisitionEvents ing) = [].
Proof. unfold acquisitionEvents. by destruct (GetClientSet (client ing)). Qed.

Lemma run_empty_ports :
  ports o = [] →
  run (deployIngress ing (Some o))
  = (Returned (Some errEmptyPorts), acquisitionEvents ing).
Proof.
  intros Hp. unfold run, deployIngress, getIngressClient, acquisitionEvents.
  unfold mbind, Go_bind, bind, emit, log_Error, emit, ret. simpl.
  rewrite Hp. by destruct (GetClientSet (client ing)).
Qed.

Lemma run_no_domain e :
  ports o ≠ [] → ingressRoot ing o = inr e →
  run (deployIngress ing (Some o)) = (Returned (Some e), acquisitionEvents ing).
Proof.
  intros Hp Hr. unfold run, deployIngress, getIngressClient, acquisitionEvents.
  unfold mbind, Go_bind, bind, emit, log_Error, emit, ret. simpl.
  rewrite Hr. destruct (ports o) as [|p ps]; [done|].
  by destruct (GetClientSet (client ing)).
Qed.

(** With a client, ports and a root, exactly one manifest reaches the
    store, and it is the one assembled from the options. *)
Lemma run_acquired cs root :
  GetClientSet (client ing) = inl cs → ports o ≠ [] →
  ingressRoot ing o = inl root →
  ∃ p,
    ports o !! 0 = Some p ∧
    let m := applyConfig o (spec o (ingressPath o root) p) in
    let tr := (run (deployIngress ing (Some o))).2 in
    submitted tr = [m] ∧
    storeCalls tr = [EvApply (namespace o) m (applyOptions ing)].
Proof.
  intros Hc Hp Hr. destruct (ports o) as [|p ps] eqn:Eports; [done|].
  exists p. split; [done|].
  unfold run, deployIngress, getIngressClient.
  unfold mbind, Go_bind, bind, emit, log_Error, emit, ret. simpl.
  rewrite Hc, Eports, Hr. simpl.
  unfold Apply, mbind, Go_bind, bind, emit, ret. simpl.
  destruct (ApplyResult cs _ _ _) as [[i|] [e|]]; simpl; done.
Qed.

(** Without a client the code goes on to the apply call all the same. *)
Lemma run_not_acquired e root :
  GetClientSet (client ing) = inr e → ports o ≠ [] →
  ingressRoot ing o = inl root →
  run (deployIngress ing (Some o))
  = (Panicked NilPointerDereference,
     [EvGetClientSet; EvLogError e ["Error with ingress client"]]).
Proof.
  intros Hc Hp Hr. destruct (ports o) as [|p ps] eqn:Eports; [done|].
  unfold run, deployIngress, getIngressClient.
  unfold mbind, Go_bind, bind, emit, log_Error, emit, ret. simpl.
  by rewrite Hc, Eports, Hr.
Qed.
End Runs.

Lemma run_delete_not_acquired ing e ns name :
  GetClientSet (client ing) = inr e →
  run (deleteIngress ing ns name) = (Panicked (PanicError e), [EvGetClientSet]).
Proof.
  intros Hc. unfold run, deleteIngress, getIngressClient.
  unfold mbind, Go_bind, bind, emit, raise, ret. simpl. by rewrite Hc.
Qed.

Lemma nginx_headers_nonempty (hs : list string) :
  hs ≠ [] → (0 <? length hs)%nat = true.
Proof. by destruct hs. Qed.

Lemma nginx_headers_app_nonempty (hs : list string) :
  (0 <? length (hs ++ extraHeaders))%nat = true.
Proof. by destruct hs. Qed.

(* ===================================================================== *)
(** ** Annotation strategies *)
(* ===================================================================== *)

(** C3 (as amended): under the nginx flavor with [proxyHeaders] set and a
    non-empty [allowedHeaders], the cors-allow-headers annotation is the
    allowed headers followed by the five forwarding headers joined with a
    comma and a space, enable-cors is true, proxy buffering is on with a 256k
    buffer, and the proxy-body-size annotation is present exactly when
    [uploadLimit] is non-empty, with [uploadLimit] as its value. *)
Theorem nginx_proxy_headers_annotations (o : DeployIngressOptions) :
  traefik o = false → proxyHeaders o = true → allowedHeaders o ≠ [] →
  let a := getIngressAnnotations o in
  a !! "nginx.ingress.kubernetes.io/cors-allow-headers"
    = Some (strings_Join
              (allowedHeaders o ++
                 ["X-Forwarded-For"; "X-Forwarded-Host"; "X-Forwarded-Server";
                  "X-Real-IP"; "X-Requested-With"]) ", ")
  ∧ a !! "nginx.ingress.kubernetes.io/enable-cors" = Some "true"
  ∧ a !! "nginx.ingress.kubernetes.io/proxy-buffering" = Some "on"
  ∧ a !! "nginx.ingress.kubernetes.io/proxy-buffer-size" = Some "256k"
  ∧ a !! "nginx.ingress.kubernetes.io/proxy-body-size"
    = (if String.eqb (uploadLimit o) "" then None else Some (uploadLimit o)).
Proof.
  intros Ht Hp Hh a. subst a.
  unfold getIngressAnnotations, getNginxHeadersAnnotations.
  rewrite Ht, Hp, (nginx_headers_nonempty _ Hh), nginx_headers_app_nonempty.
  fold extraHeaders.
  destruct (String.eqb (uploadLimit o) ""), (tls o); cbn [negb];
    repeat split; lookup_chain.
Qed.

(** C3 (as written) fails: with an empty [uploadLimit] the nginx strategy
    emits no proxy-body-size annotation although [proxyHeaders] is set and
    [allowedHeaders] is non-empty. *)
Lemma nginx_body_size_absent_without_limit :
  traefik sampleOptions = false
  ∧ proxyHeaders sampleOptions = true
  ∧ allowedHeaders sampleOptions ≠ []
  ∧ getIngressAnnotations sampleOptions
      !! "nginx.ingress.kubernetes.io/proxy-body-size" = None.
Proof.
  split; [reflexivity|]. split; [reflexivity|]. split; [discriminate|].
  by vm_compute.
Qed.

Lemma nginx_proxy_headers_annotations_witness :
  traefik sampleOptions = false
  ∧ proxyHeaders sampleOptions = true
  ∧ allowedHeaders sampleOptions ≠ []
  ∧ getIngressAnnotations sampleOptions
      !! "nginx.ingress.kubernetes.io/cors-allow-headers"
    = Some "X-Custom, X-Forwarded-For, X-Forwarded-Host, X-Forwarded-Server, X-Real-IP, X-Requested-With".
Proof.
  split; [reflexivity|]. split; [reflexivity|]. split; [discriminate|].
  apply (nginx_proxy_headers_annotations sampleOptions);
    [reflexivity | reflexivity | discriminate].
Defined.

(** C10: under the nginx flavor with a non-empty [allowedHeaders] and
    [proxyHeaders] unset, cors-allow-headers is the allowed headers joined
    with a comma and a space, while enable-cors, proxy-buffering and
    proxy-buffer-size are absent. *)
Theorem nginx_allow_list_without_cors (o : DeployIngressOptions) :
  traefik o = false → proxyHeaders o = false → allowedHeaders o ≠ [] →
  let a := getIngressAnnotations o in
  a !! "nginx.ingress.kubernetes.io/cors-allow-headers"
    = Some (strings_Join (allowedHeaders o) ", ")
  ∧ a !! "nginx.ingress.kubernetes.io/enable-cors" = None
  ∧ a !! "nginx.ingress.kubernetes.io/proxy-buffering" = None
  ∧ a !! "nginx.ingress.kubernetes.io/proxy-buffer-size" = None.
Proof.
  intros Ht Hp Hh a. subst a.
  unfold getIngressAnnotations, getNginxHeadersAnnotations.
  rewrite Ht, Hp, !(nginx_headers_nonempty _ Hh).
  destruct (String.eqb (uploadLimit o) ""), (tls o); cbn [negb];
    repeat split; lookup_chain.
Qed.

Lemma nginx_allow_list_without_cors_witness :
  traefik allowListOptions = false
  ∧ proxyHeaders allowListOptions = false
  ∧ allowedHeaders allowListOptions ≠ []
  ∧ getIngressAnnotations allowListOptions
      !! "nginx.ingress.kubernetes.io/cors-allow-headers"
    = Some "X-Custom, X-Trace"
  ∧ getIngressAnnotations allowListOptions
      !! "nginx.ingress.kubernetes.io/enable-cors" = None.
Proof.
  split; [reflexivity|]. split; [reflexivity|]. split; [discriminate|].
  pose proof (nginx_allow_list_without_cors allowListOptions
                eq_refl eq_refl ltac:(discriminate)) as (H1 & H2 & _).
  split; [exact H1 | exact H2].
Defined.

(** C8: under the traefik flavor with TLS disabled the generated set has
    exactly two keys, the ingress class (traefik) and the router entrypoints
    (web), and none of the certificate-issuer, TLS-ACME, HTTP-01 class or
    router-TLS keys. *)
Theorem traefik_plain_annotations (o : DeployIngressOptions) :
  traefik o = true → tls o = false →
  let a := getIngressAnnotations o in
  dom a = {[ "kubernetes.io/ingress.class";
             "traefik.ingress.kubernetes.io/router.entrypoints" ]}
  ∧ size a = 2
  ∧ a !! "kubernetes.io/ingress.class" = Some "traefik"
  ∧ a !! "traefik.ingress.kubernetes.io/router.entrypoints" = Some "web"
  ∧ a !! "cert-manager.io/cluster-issuer" = None
  ∧ a !! "kubernetes.io/tls-acme" = None
  ∧ a !! "acme.cert-manager.io/http01-ingress-class" = None
  ∧ a !! "traefik.ingress.kubernetes.io/router.tls" = None.
Proof.
  intros Ht Htls a. subst a.
  unfold getIngressAnnotations, getTraefikHeadersAnnotations.
  rewrite Ht, Htls. cbv zeta.
  split.
  { rewrite !dom_insert_L, dom_empty_L. set_solver. }
  split.
  { rewrite map_size_insert_None by lookup_chain.
    by rewrite insert_empty, map_size_singleton. }
  repeat split; lookup_chain.
Qed.

Lemma traefik_plain_annotations_witness :
  traefik traefikOptions = true ∧ tls traefikOptions = false
  ∧ size (getIngressAnnotations traefikOptions) = 2.
Proof.
  split; [reflexivity|]. split; [reflexivity|].
  apply (traefik_plain_annotations traefikOptions); reflexivity.
Defined.

(* ===================================================================== *)
(** ** The user overlay *)
(* ===================================================================== *)

(** C6: whatever the generated set [G] and the user mapping [U], every key
    of [U] is in the final set with the value [U] gives it; on a key present
    in both the user value wins.  The annotations of the apply configuration
    are that overlay. *)
Theorem user_annotations_win (G U : gmap string string) (k v : string) :
  U !! k = Some v →
  maps_Copy G U !! k = Some v
  ∧ ∀ o s, getIngressAnnotations o = G → annotations o = U →
           Annotations (applyConfig o s) !! k = Some v.
Proof.
  intros HU. split.
  - by apply maps_Copy_lookup_src.
  - intros o s <- <-. cbn. by apply maps_Copy_lookup_src.
Qed.

Lemma user_annotations_win_witness :
  ({[ "cert-manager.io/cluster-issuer" := "internal-ca" ]} : gmap string string)
    !! "cert-manager.io/cluster-issuer" = Some "internal-ca"
  ∧ maps_Copy (getNginxHeadersAnnotations sampleOptions)
              {[ "cert-manager.io/cluster-issuer" := "internal-ca" ]}
      !! "cert-manager.io/cluster-issuer" = Some "internal-ca".
Proof.
  split; [apply lookup_singleton_eq|].
  exact (proj1 (user_annotations_win (getNginxHeadersAnnotations sampleOptions)
                  {[ "cert-manager.io/cluster-issuer" := "internal-ca" ]}
                  "cert-manager.io/cluster-issuer" "internal-ca"
                  (lookup_singleton_eq _ _))).
Defined.

(** C9: overlaying the user mapping a second time changes nothing. *)
Theorem user_overlay_idempotent (G U : gmap string string) :
  maps_Copy (maps_Copy G U) U = maps_Copy G U.
Proof.
  rewrite !maps_Copy_union.
  by rewrite (assoc_L (∪)), (idemp_L (∪)).
Qed.

(* ===================================================================== *)
(** ** Host resolution, TLS and the error paths of deployIngress *)
(* ===================================================================== *)

Lemma spec_rules o host port0 :
  Host <$> Rules (spec o host port0) = [host].
Proof. unfold spec, getTLSConfig. by destruct (tls o). Qed.

Lemma spec_tls o host port0 :
  TLS (spec o host port0)
  = if tls o then
      [ {| Hosts := [host]; SecretName := containerName o +:+ "-tls" |} ]
    else [].
Proof. unfold spec, getTLSConfig. by destruct (tls o). Qed.

Lemma submitted_host ing o cs root :
  GetClientSet (client ing) = inl cs → ports o ≠ [] →
  ingressRoot ing o = inl root →
  ∃ m, submitted (run (deployIngress ing (Some o))).2 = [m]
       ∧ Host <$> Rules (Spec m) = [ingressPath o root].
Proof.
  intros Hc Hp Hr.
  destruct (run_acquired ing o cs root Hc Hp Hr) as (p & _ & Hsub & _).
  eexists. split; [exact Hsub|]. cbn. apply spec_rules.
Qed.

(** C2 (as written) fails: with an empty [ports] list the run is not free of
    calls against the remote API, since the client is acquired before the
    ports are looked at. *)
Lemma empty_ports_still_acquires_client :
  ports noPortsOptions = []
  ∧ remoteCalls (run (deployIngress (newIngress okClient)
                        (Some noPortsOptions))).2 = [EvGetClientSet]
  ∧ remoteCalls (run (deployIngress (newIngress okClient)
                        (Some noPortsOptions))).2 ≠ [].
Proof. split; [reflexivity|]. split; [reflexivity|discriminate]. Qed.

(** C2 (as amended): with an empty [ports] list [deployIngress] returns the
    empty-ports error, which differs from the missing-domain error and from
    every error of the client library; no manifest is handed over and
    neither apply nor delete is called on the store.  The client acquisition
    is attempted first and is the only call against the remote API: the run
    consists of it and, when it failed, of its log entry. *)
Theorem empty_ports_rejected_after_acquisition (ing : ingress)
    (o : DeployIngressOptions) :
  ports o = [] →
  ∃ tr,
    run (deployIngress ing (Some o)) = (Returned (Some errEmptyPorts), tr)
    ∧ tr = EvGetClientSet ::
             match GetClientSet (client ing) with
             | inl _ => []
             | inr e => [EvLogError e ["Error with ingress client"]]
             end
    ∧ remoteCalls tr = [EvGetClientSet]
    ∧ submitted tr = []
    ∧ storeCalls tr = []
    ∧ errEmptyPorts ≠ errNoDomain
    ∧ ∀ reason, errEmptyPorts ≠ clientError reason.
Proof.
  intros Hp. exists (acquisitionEvents ing).
  split; [by apply run_empty_ports|].
  unfold acquisitionEvents.
  destruct (GetClientSet (client ing)) as [cs|e];
    repeat split; discriminate.
Qed.

Lemma empty_ports_rejected_after_acquisition_witness :
  ports noPortsOptions = []
  ∧ ∃ tr,
      run (deployIngress (newIngress brokenClient) (Some noPortsOptions))
      = (Returned (Some errEmptyPorts), tr)
      ∧ tr = EvGetClientSet ::
               match GetClientSet (client (newIngress brokenClient)) with
               | inl _ => []
               | inr e => [EvLogError e ["Error with ingress client"]]
               end
      ∧ remoteCalls tr = [EvGetClientSet]
      ∧ submitted tr = []
      ∧ storeCalls tr = []
      ∧ errEmptyPorts ≠ errNoDomain
      ∧ ∀ reason, errEmptyPorts ≠ clientError reason.
Proof.
  split; [reflexivity|].
  exact (empty_ports_rejected_after_acquisition (newIngress brokenClient)
           noPortsOptions eq_refl).
Defined.

(** C4: given a usable root, the resolved host is ingressName, a dot and the
    root when [ingressName] is non-empty, whatever the container name and the
    namespace; otherwise it is containerName, a dot, namespace, a dot and the
    root.  It is the host of the rule of the manifest handed to the store. *)
Theorem resolved_host (ing : ingress) (o : DeployIngressOptions) (root : string) :
  ingressRoot ing o = inl root →
  (ingressName o ≠ "" → ingressPath o root = ingressName o +:+ "." +:+ root)
  ∧ (ingressName o = "" →
     ingressPath o root = containerName o +:+ "." +:+ namespace o +:+ "." +:+ root)
  ∧ (∀ cs, GetClientSet (client ing) = inl cs → ports o ≠ [] →
       ∃ m, submitted (run (deployIngress ing (Some o))).2 = [m]
            ∧ Host <$> Rules (Spec m) = [ingressPath o root]).
Proof.
  intros Hr. repeat split.
  - intros Hn. unfold ingressPath. by rewrite (eqb_empty_false _ Hn).
  - intros Hn. unfold ingressPath. by rewrite Hn.
  - intros cs Hc Hp. by apply (submitted_host ing o cs).
Qed.

Lemma resolved_host_witness :
  ingressRoot (newIngress okClient) sampleOptions = inl "example.com"
  ∧ ingressName sampleOptions = ""
  ∧ ingressPath sampleOptions "example.com" = "web.prod.example.com".
Proof.
  split; [reflexivity|]. split; [reflexivity|].
  exact (proj1 (proj2 (resolved_host (newIngress okClient) sampleOptions
                         "example.com" eq_refl)) eq_refl).
Defined.

(** C5: the root is [ingressHost] verbatim when that is non-empty, even if a
    root domain is configured; else the configured root domain when that is
    non-empty; else [deployIngress] returns a configuration error (the
    missing-domain error, or the empty-ports error when the ports are empty
    as well), hands over no manifest and calls neither apply nor delete.
    The root chosen is the one the host of the manifest is built from. *)
Theorem root_domain_priority (ing : ingress) (o : DeployIngressOptions) :
  (ingressHost o ≠ "" → ingressRoot ing o = inl (ingressHost o))
  ∧ (ingressHost o = "" → IngressRootDomain (appConfig ing) ≠ "" →
     ingressRoot ing o = inl (IngressRootDomain (appConfig ing)))
  ∧ (ingressHost o = "" → IngressRootDomain (appConfig ing) = "" →
     ∃ tr,
       run (deployIngress ing (Some o))
       = (Returned (Some (match ports o with
                          | [] => errEmptyPorts
                          | _ :: _ => errNoDomain
                          end)), tr)
       ∧ submitted tr = [] ∧ storeCalls tr = [])
  ∧ (∀ cs root, GetClientSet (client ing) = inl cs → ports o ≠ [] →
       ingressRoot ing o = inl root →
       ∃ m, submitted (run (deployIngress ing (Some o))).2 = [m]
            ∧ Host <$> Rules (Spec m) = [ingressPath o root]).
Proof.
  repeat split.
  - intros Hh. unfold ingressRoot. by rewrite (eqb_empty_false _ Hh).
  - intros Hh Hd. unfold ingressRoot. by rewrite Hh, (eqb_empty_false _ Hd).
  - intros Hh Hd. exists (acquisitionEvents ing).
    destruct (acquisitionEvents_quiet ing) as [Hs Hc].
    split; [|by split].
    destruct (ports o) as [|p ps] eqn:Eports.
    + by apply run_empty_ports.
    + apply run_no_domain; [by rewrite Eports|].
      unfold ingressRoot. by rewrite Hh, Hd.
  - intros cs root. apply submitted_host.
Qed.

Lemma root_domain_priority_witness :
  ingressHost hostOverrideOptions ≠ ""
  ∧ IngressRootDomain (appConfig (newIngress okClient)) ≠ ""
  ∧ ingressRoot (newIngress okClient) hostOverrideOptions = inl "apps.example.org".
Proof.
  split; [discriminate|]. split; [discriminate|].
  exact (proj1 (root_domain_priority (newIngress okClient) hostOverrideOptions)
           ltac:(discriminate)).
Defined.

(** C7: with TLS enabled the manifest carries one TLS entry whose hosts are
    exactly the resolved host and whose secret name is the container name
    followed by -tls; with TLS disabled it carries none. *)
Theorem tls_block (ing : ingress) (o : DeployIngressOptions) :
  (∀ host c,
     getTLSConfig host c true
     = Some {| Hosts := [host]; SecretName := c +:+ "-tls" |}
     ∧ getTLSConfig host c false = None)
  ∧ (∀ cs root, GetClientSet (client ing) = inl cs → ports o ≠ [] →
       ingressRoot ing o = inl root →
       ∃ m, submitted (run (deployIngress ing (Some o))).2 = [m]
            ∧ TLS (Spec m)
              = if tls o then
                  [ {| Hosts := [ingressPath o root];
                       SecretName := containerName o +:+ "-tls" |} ]
                else []).
Proof.
  split; [by split|].
  intros cs root Hc Hp Hr.
  destruct (run_acquired ing o cs root Hc Hp Hr) as (p & _ & Hsub & _).
  eexists. split; [exact Hsub|]. cbn. apply spec_tls.
Qed.

Lemma tls_block_witness :
  GetClientSet (client (newIngress okClient)) = inl okStore
  ∧ ports sampleOptions ≠ []
  ∧ ingressRoot (newIngress okClient) sampleOptions = inl "example.com"
  ∧ ∃ m, submitted (run (deployIngress (newIngress okClient)
                           (Some sampleOptions))).2 = [m]
         ∧ TLS (Spec m)
           = [ {| Hosts := ["web.prod.example.com"]; SecretName := "web-tls" |} ].
Proof.
  split; [reflexivity|]. split; [discriminate|]. split; [reflexivity|].
  exact (proj2 (tls_block (newIngress okClient) sampleOptions)
           okStore "example.com" eq_refl ltac:(discriminate) eq_refl).
Defined.

(** C1 (what the code does instead): when the client cannot be acquired,
    [deleteIngress] panics with the acquisition error, and [deployIngress],
    given ports and a usable root, logs the error, goes on with the nil
    client and panics at the apply call; neither returns the error. *)
Theorem acquisition_failure_aborts (ing : ingress) (e : error) :
  GetClientSet (client ing) = inr e →
  (∀ ns name,
     run (deleteIngress ing ns name)
     = (Panicked (PanicError e), [EvGetClientSet]))
  ∧ (∀ o root, ports o ≠ [] → ingressRoot ing o = inl root →
       run (deployIngress ing (Some o))
       = (Panicked NilPointerDereference,
          [EvGetClientSet; EvLogError e ["Error with ingress client"]])).
Proof.
  intros Hc. split.
  - intros ns name. by apply run_delete_not_acquired.
  - intros o root Hp Hr. by apply (run_not_acquired ing o e root).
Qed.

Lemma acquisition_failure_aborts_witness :
  GetClientSet (client (newIngress brokenClient))
    = inr (clientError "connection refused")
  ∧ run (deleteIngress (newIngress brokenClient) "prod" "web")
    = (Panicked (PanicError (clientError "connection refused")), [EvGetClientSet])
  ∧ run (deployIngress (newIngress brokenClient) (Some sampleOptions))
    = (Panicked NilPointerDereference,
       [EvGetClientSet;
        EvLogError (clientError "connection refused") ["Error with ingress client"]]).
Proof.
  split; [reflexivity|].
  pose proof (acquisition_failure_aborts (newIngress brokenClient)
                (clientError "connection refused") eq_refl) as [Hd Ha].
  split.
  - exact (Hd "prod" "web").
  - exact (Ha sampleOptions "example.com" ltac:(discriminate) eq_refl).
Defined.

(* ===================================================================== *)
(** ** Further properties of the runs *)
(* ===================================================================== *)

(** X1: a nil options pointer is refused before anything else happens (no
    client acquisition, no log entry), whereas for every non-nil options
    value the client acquisition is the first event of the run, whatever the
    ports and the domains are. *)
Theorem nil_options_touch_nothing (ing : ingress) :
  run (deployIngress ing None)
  = (Returned (Some (errorString "ingress deployment is nil")), [])
  ∧ ∀ o, ∃ tr, (run (deployIngress ing (Some o))).2 = EvGetClientSet :: tr.
Proof.
  split; [reflexivity|]. intros o. run_unfold.
  destruct (GetClientSet (client ing)) as [cs|e]; simpl;
    (destruct (ports o) as [|p ps]; simpl; [by eexists|]);
    (destruct (ingressRoot ing o) as [root|e']; simpl; [|by eexists]).
  - destruct (ApplyResult cs _ _ _) as [[i|] [e'|]]; simpl; by eexists.
  - by eexists.
Qed.

(** X2: when the store turns the apply down and hands an object back,
    [deployIngress] returns the error of the store unchanged, after exactly
    one apply call and one log entry carrying the name of that object; it
    does not retry. *)
Theorem apply_error_is_returned (ing : ingress) (o : DeployIngressOptions)
    (cs : Clientset) (p : Z) (ps : list Z) (root : string)
    (i : Ingress) (e : error) :
  GetClientSet (client ing) = inl cs →
  ports o = p :: ps →
  ingressRoot ing o = inl root →
  ApplyResult cs (namespace o)
    (applyConfig o (spec o (ingressPath o root) p)) (applyOptions ing)
  = (Some i, Some e) →
  run (deployIngress ing (Some o))
  = (Returned (Some e),
     [EvGetClientSet;
      EvApply (namespace o)
        (applyConfig o (spec o (ingressPath o root) p)) (applyOptions ing);
      EvLogError e ["ingress"; ObjectMeta_Name i]]).
Proof.
  intros Hc Hp Hr Ha. run_unfold.
  rewrite Hc, Hp, Hr. simpl.
  unfold applyOptions in Ha. by rewrite Ha.
Qed.

Lemma apply_error_is_returned_witness :
  run (deployIngress (newIngress conflictClient) (Some sampleOptions))
  = (Returned (Some (clientError "conflict")),
     [EvGetClientSet;
      EvApply (namespace sampleOptions)
        (applyConfig sampleOptions
           (spec sampleOptions (ingressPath sampleOptions "example.com") 8080))
        (applyOptions (newIngress conflictClient));
      EvLogError (clientError "conflict")
        ["ingress"; ObjectMeta_Name {| ObjectMeta_Name := "web" |}]]).
Proof.
  exact (apply_error_is_returned (newIngress conflictClient) sampleOptions
           conflictStore 8080 [9090%Z] "example.com"
           {| ObjectMeta_Name := "web" |} (clientError "conflict")
           eq_refl eq_refl eq_refl eq_refl).
Defined.

(** X3: when the store turns the apply down and hands back a nil pointer,
    [deployIngress] panics with a nil dereference while building the log
    entry; the error of the store is neither logged nor returned. *)
Theorem apply_error_without_object_panics (ing : ingress)
    (o : DeployIngressOptions) (cs : Clientset) (p : Z) (ps : list Z)
    (root : string) (e : error) :
  GetClientSet (client ing) = inl cs →
  ports o = p :: ps →
  ingressRoot ing o = inl root →
  ApplyResult cs (namespace o)
    (applyConfig o (spec o (ingressPath o root) p)) (applyOptions ing)
  = (None, Some e) →
  run (deployIngress ing (Some o))
  = (Panicked NilPointerDereference,
     [EvGetClientSet;
      EvApply (namespace o)
        (applyConfig o (spec o (ingressPath o root) p)) (applyOptions ing)]).
Proof.
  intros Hc Hp Hr Ha. run_unfold.
  rewrite Hc, Hp, Hr. simpl.
  unfold applyOptions in Ha. by rewrite Ha.
Qed.

Lemma apply_error_without_object_panics_witness :
  run (deployIngress (newIngress emptyHandedClient) (Some sampleOptions))
  = (Panicked NilPointerDereference,
     [EvGetClientSet;
      EvApply (namespace sampleOptions)
        (applyConfig sampleOptions
           (spec sampleOptions (ingressPath sampleOptions "example.com") 8080))
        (applyOptions (newIngress emptyHandedClient))]).
Proof.
  exact (apply_error_without_object_panics (newIngress emptyHandedClient)
           sampleOptions emptyHandedStore 8080 [9090%Z] "example.com"
           (clientError "invalid") eq_refl eq_refl eq_refl eq_refl).
Defined.

(** X4: when the store accepts the apply, [deployIngress] returns nil after
    the acquisition and that single apply call, with no log entry, whether or
    not an object came back. *)
Theorem apply_success_returns_nil (ing : ingress) (o : DeployIngressOptions)
    (cs : Clientset) (p : Z) (ps : list Z) (root : string)
    (i : option Ingress) :
  GetClientSet (client ing) = inl cs →
  ports o = p :: ps →
  ingressRoot ing o = inl root →
  ApplyResult cs (namespace o)
    (applyConfig o (spec o (ingressPath o root) p)) (applyOptions ing)
  = (i, None) →
  run (deployIngress ing (Some o))
  = (Returned None,
     [EvGetClientSet;
      EvApply (namespace o)
        (applyConfig o (spec o (ingressPath o root) p)) (applyOptions ing)]).
Proof.
  intros Hc Hp Hr Ha. run_unfold.
  rewrite Hc, Hp, Hr. simpl.
  unfold applyOptions in Ha. by rewrite Ha.
Qed.

Lemma apply_success_returns_nil_witness :
  run (deployIngress (newIngress okClient) (Some sampleOptions))
  = (Returned None,
     [EvGetClientSet;
      EvApply (namespace sampleOptions)
        (applyConfig sampleOptions
           (spec sampleOptions (ingressPath sampleOptions "example.com") 8080))
        (applyOptions (newIngress okClient))]).
Proof.
  exact (apply_success_returns_nil (newIngress okClient) sampleOptions
           okStore 8080 [9090%Z] "example.com"
           (Some {| ObjectMeta_Name := "web" |})
           eq_refl eq_refl eq_refl eq_refl).
Defined.

(** X5: whatever happens, [deployIngress] calls the store at most once, and
    that call is an apply in the namespace of the options under the
    configured field manager and force flag; it never deletes. *)
Theorem deploy_calls_store_at_most_once (ing : ingress) (o : DeployIngressOptions) :
  let tr := (run (deployIngress ing (Some o))).2 in
  storeCalls tr = []
  ∨ ∃ m, storeCalls tr
         = [EvApply (namespace o) m
              {| FieldManager := FieldManagerName (appConfig ing);
                 Force := ForceOnConflicts (appConfig ing) |}].
Proof.
  run_unfold.
  destruct (GetClientSet (client ing)) as [cs|e]; simpl;
    (destruct (ports o) as [|p ps]; simpl; [by left|]);
    (destruct (ingressRoot ing o) as [root|e']; simpl; [|by left]).
  - right. destruct (ApplyResult cs _ _ _) as [[i|] [e'|]]; simpl; by eexists.
  - by left.
Qed.

(** X6: [deployIngress] never reports success without a client: when the
    acquisition fails the run does not return nil and the store is not
    called. *)
Theorem no_success_without_client (ing : ingress)
    (oo : option DeployIngressOptions) (e : error) :
  GetClientSet (client ing) = inr e →
  (run (deployIngress ing oo)).1 ≠ Returned None
  ∧ storeCalls (run (deployIngress ing oo)).2 = [].
Proof.
  intros Hc. destruct oo as [o|]; [|by split].
  run_unfold. rewrite Hc. simpl.
  destruct (ports o) as [|p ps]; simpl; [by split|].
  destruct (ingressRoot ing o) as [root|e']; simpl; by split.
Qed.

Lemma no_success_without_client_witness :
  GetClientSet (client (newIngress brokenClient))
    = inr (clientError "connection refused")
  ∧ (run (deployIngress (newIngress brokenClient) (Some noPortsOptions))).1
    ≠ Returned None.
Proof.
  split; [reflexivity|].
  exact (proj1 (no_success_without_client (newIngress brokenClient)
                  (Some noPortsOptions) (clientError "connection refused")
                  eq_refl)).
Defined.

(** X7: the only panic a run of [deployIngress] can end in is a nil
    dereference; the read of the first port never goes out of range, because
    the length check comes first, and the function never panics with an
    error value. *)
Theorem deploy_panics_only_on_nil (ing : ingress)
    (oo : option DeployIngressOptions) (pv : panic) :
  (run (deployIngress ing oo)).1 = Panicked pv → pv = NilPointerDereference.
Proof.
  destruct oo as [o|]; [|discriminate].
  run_unfold.
  destruct (GetClientSet (client ing)) as [cs|e]; simpl;
    (destruct (ports o) as [|p ps]; simpl; [discriminate|]);
    (destruct (ingressRoot ing o) as [root|e']; simpl; [|discriminate]).
  - destruct (ApplyResult cs _ _ _) as [[i|] [e'|]]; simpl; congruence.
  - congruence.
Qed.

Lemma deploy_panics_only_on_nil_witness :
  (run (deployIngress (newIngress brokenClient) (Some sampleOptions))).1
    = Panicked NilPointerDereference
  ∧ NilPointerDereference = NilPointerDereference.
Proof.
  split; [reflexivity|].
  exact (deploy_panics_only_on_nil (newIngress brokenClient)
           (Some sampleOptions) NilPointerDereference eq_refl).
Defined.

(* ===================================================================== *)
(** ** Further properties of the manifest *)
(* ===================================================================== *)

Lemma maps_Copy_into_empty (src : gmap string string) : maps_Copy ∅ src = src.
Proof. by rewrite maps_Copy_union, (right_id_L ∅ (∪)). Qed.

(** The manifest of a run that reaches the store, with the first port named. *)
Lemma submitted_manifest ing o cs p ps root :
  GetClientSet (client ing) = inl cs → ports o = p :: ps →
  ingressRoot ing o = inl root →
  submitted (run (deployIngress ing (Some o))).2
  = [applyConfig o (spec o (ingressPath o root) p)].
Proof.
  intros Hc Hp Hr.
  destruct (run_acquired ing o cs root Hc) as (p' & Hp' & Hsub & _);
    [by rewrite Hp | done |].
  rewrite Hp in Hp'. by injection Hp' as <-.
Qed.

(** X8: the manifest handed to the store has exactly one rule with exactly
    one path, the root path with implementation-specific matching, whose
    backend is the service named after the container on the first port of
    the list; the other ports do not appear. *)
Theorem backend_targets_first_port (ing : ingress) (o : DeployIngressOptions)
    (cs : Clientset) (p : Z) (ps : list Z) (root : string) :
  GetClientSet (client ing) = inl cs →
  ports o = p :: ps →
  ingressRoot ing o = inl root →
  ∃ m, submitted (run (deployIngress ing (Some o))).2 = [m]
       ∧ Rules (Spec m)
         = [ {| Host := ingressPath o root;
                HTTPPaths :=
                  [ {| Path := "/";
                       PathTypeOf := PathTypeImplementationSpecific;
                       Backend := {| ServiceName := containerName o;
                                     ServicePortNumber := p |} |} ] |} ].
Proof.
  intros Hc Hp Hr. eexists. split; [by eapply submitted_manifest|].
  cbn. unfold spec, getTLSConfig. by destruct (tls o).
Qed.

Lemma backend_targets_first_port_witness :
  ports sampleOptions = [8080%Z; 9090%Z]
  ∧ ∃ m, submitted (run (deployIngress (newIngress okClient)
                           (Some sampleOptions))).2 = [m]
         ∧ Rules (Spec m)
           = [ {| Host := ingressPath sampleOptions "example.com";
                  HTTPPaths :=
                    [ {| Path := "/";
                         PathTypeOf := PathTypeImplementationSpecific;
                         Backend := {| ServiceName := containerName sampleOptions;
                                       ServicePortNumber := 8080 |} |} ] |} ].
Proof.
  split; [reflexivity|].
  exact (backend_targets_first_port (newIngress okClient) sampleOptions
           okStore 8080 [9090%Z] "example.com" eq_refl eq_refl eq_refl).
Defined.

(** X9: the manifest handed to the store is an Ingress of
    networking.k8s.io/v1 named after the container, and its labels are
    exactly the labels of the options (none are added, none are lost). *)
Theorem manifest_identity_and_labels (ing : ingress) (o : DeployIngressOptions)
    (cs : Clientset) (root : string) :
  GetClientSet (client ing) = inl cs →
  ports o ≠ [] →
  ingressRoot ing o = inl root →
  ∃ m, submitted (run (deployIngress ing (Some o))).2 = [m]
       ∧ Kind m = "Ingress"
       ∧ APIVersion m = "networking.k8s.io/v1"
       ∧ Name m = containerName o
       ∧ Labels m = labels o.
Proof.
  intros Hc Hp Hr.
  destruct (run_acquired ing o cs root Hc Hp Hr) as (p & _ & Hsub & _).
  eexists. split; [exact Hsub|]. cbn.
  repeat split. apply maps_Copy_into_empty.
Qed.

Lemma manifest_identity_and_labels_witness :
  ports labelledOptions ≠ []
  ∧ ∃ m, submitted (run (deployIngress (newIngress okClient)
                           (Some labelledOptions))).2 = [m]
         ∧ Kind m = "Ingress"
         ∧ APIVersion m = "networking.k8s.io/v1"
         ∧ Name m = containerName labelledOptions
         ∧ Labels m = labels labelledOptions.
Proof.
  split; [discriminate|].
  exact (manifest_identity_and_labels (newIngress okClient) labelledOptions
           okStore "example.com" eq_refl ltac:(discriminate) eq_refl).
Defined.

(** X10: with TLS enabled, the hosts of the TLS entry of the manifest are
    the hosts of its rules: the certificate is always requested for the very
    host that is routed. *)
Theorem tls_hosts_match_rule (ing : ingress) (o : DeployIngressOptions)
    (cs : Clientset) (root : string) :
  GetClientSet (client ing) = inl cs →
  ports o ≠ [] →
  ingressRoot ing o = inl root →
  tls o = true →
  ∃ m t, submitted (run (deployIngress ing (Some o))).2 = [m]
         ∧ TLS (Spec m) = [t]
         ∧ Hosts t = Host <$> Rules (Spec m).
Proof.
  intros Hc Hp Hr Ht.
  destruct (run_acquired ing o cs root Hc Hp Hr) as (p & _ & Hsub & _).
  do 2 eexists. split; [exact Hsub|]. cbn.
  unfold spec, getTLSConfig. rewrite Ht. cbn. by split.
Qed.

Lemma tls_hosts_match_rule_witness :
  ports sampleOptions ≠ [] ∧ tls sampleOptions = true
  ∧ ∃ m t, submitted (run (deployIngress (newIngress okClient)
                             (Some sampleOptions))).2 = [m]
           ∧ TLS (Spec m) = [t]
           ∧ Hosts t = Host <$> Rules (Spec m).
Proof.
  split; [discriminate|]. split; [reflexivity|].
  exact (tls_hosts_match_rule (newIngress okClient) sampleOptions okStore
           "example.com" eq_refl ltac:(discriminate) eq_refl eq_refl).
Defined.

(** X11: the overlay leaves alone what the user did not name: a key absent
    from the user mapping keeps its generated value in the annotations of the
    manifest, and the keys of the manifest are the user keys together with
    the generated keys. *)
Theorem overlay_keeps_generated_elsewhere (o : DeployIngressOptions)
    (s : IngressSpec) :
  (∀ k, annotations o !! k = None →
        Annotations (applyConfig o s) !! k = getIngressAnnotations o !! k)
  ∧ dom (Annotations (applyConfig o s))
    = dom (annotations o) ∪ dom (getIngressAnnotations o).
Proof.
  split.
  - intros k Hk. cbn. by apply maps_Copy_lookup_dst.
  - cbn. by rewrite maps_Copy_union, dom_union_L.
Qed.

(** X12: the routing root that [deployIngress] goes on with is never empty
    and is one of the two candidates; it gives up with the missing-domain
    error only when both the host of the options and the configured root
    domain are empty. *)
Theorem root_is_never_empty (ing : ingress) (o : DeployIngressOptions) :
  match ingressRoot ing o with
  | inl root =>
      root ≠ ""
      ∧ (root = ingressHost o ∨ root = IngressRootDomain (appConfig ing))
  | inr e =>
      e = errNoDomain
      ∧ ingressHost o = "" ∧ IngressRootDomain (appConfig ing) = ""
  end.
Proof.
  unfold ingressRoot.
  destruct (String.eqb_spec (ingressHost o) "") as [Hh|Hh]; cbn [negb].
  - destruct (String.eqb_spec (IngressRootDomain (appConfig ing)) "") as [Hd|Hd];
      cbn [negb]; [by repeat split | by split; [|right]].
  - by split; [|left].
Qed.

(** X13: with a client, [deleteIngress] makes one delete call for the name in
    the namespace and returns the answer of the store as it is; an error of
    the store (such as not found) is not masked, and nothing is logged. *)
Theorem delete_returns_store_answer (ing : ingress) (cs : Clientset)
    (ns name : string) :
  GetClientSet (client ing) = inl cs →
  run (deleteIngress ing ns name)
  = (Returned (DeleteResult cs ns name), [EvGetClientSet; EvDelete ns name]).
Proof. intros Hc. run_unfold. by rewrite Hc. Qed.

Lemma delete_returns_store_answer_witness :
  GetClientSet (client (newIngress conflictClient)) = inl conflictStore
  ∧ run (deleteIngress (newIngress conflictClient) "prod" "web")
    = (Returned (DeleteResult conflictStore "prod" "web"),
       [EvGetClientSet; EvDelete "prod" "web"])
  ∧ DeleteResult conflictStore "prod" "web" = Some (clientError "not found").
Proof.
  split; [reflexivity|]. split; [|reflexivity].
  exact (delete_returns_store_answer (newIngress conflictClient) conflictStore
           "prod" "web" eq_refl).
Defined.

(** X14: [deleteIngress] never hands a manifest to the store, and the only
    store call it can make is the delete of the given name in the given
    namespace. *)
Theorem delete_never_applies (ing : ingress) (ns name : string) :
  let tr := (run (deleteIngress ing ns name)).2 in
  submitted tr = []
  ∧ (storeCalls tr = [] ∨ storeCalls tr = [EvDelete ns name]).
Proof.
  run_unfold.
  destruct (GetClientSet (client ing)) as [cs|e]; simpl;
    split; auto.
Qed.

(* ===================================================================== *)
(** ** Further properties of the annotation strategies *)
(* ===================================================================== *)

(** The nginx strategy with the header list named. *)
Lemma nginx_annotations_unfold (o : DeployIngressOptions) :
  getNginxHeadersAnnotations o
  = let a0 : gmap string string :=
      if tls o then
        <["cert-manager.io/cluster-issuer" := clusterIssuerDefault]>
          (<["kubernetes.io/tls-acme" := "true"]> ∅)
      else ∅ in
    let a1 := <["kubernetes.io/ingress.class" := "nginx"]> a0 in
    let a2 :=
      if proxyHeaders o then
        <["nginx.ingress.kubernetes.io/proxy-buffer-size" := "256k"]>
          (<["nginx.ingress.kubernetes.io/proxy-buffering" := "on"]>
             (<["nginx.ingress.kubernetes.io/enable-cors" := "true"]> a1))
      else a1 in
    let a3 :=
      match corsHeaders o with
      | [] => a2
      | _ :: _ =>
          <["nginx.ingress.kubernetes.io/cors-allow-headers"
            := strings_Join (corsHeaders o) ", "]> a2
      end in
    if String.eqb (uploadLimit o) "" then a3
    else <["nginx.ingress.kubernetes.io/proxy-body-size" := uploadLimit o]> a3.
Proof.
  unfold getNginxHeadersAnnotations, corsHeaders.
  destruct (allowedHeaders o) as [|h hs], (proxyHeaders o), (tls o),
    (String.eqb (uploadLimit o) ""); cbv iota; rewrite ?app_nil_r;
    reflexivity.
Qed.

(** X15: under the traefik flavor with TLS enabled the generated set has
    exactly six keys: the class (traefik), both entrypoints (web,websecure),
    the HTTP-01 class (traefik), router TLS (true), TLS-ACME (true) and the
    cluster issuer (letsencrypt-prod). *)
Theorem traefik_tls_annotations (o : DeployIngressOptions) :
  traefik o = true → tls o = true →
  let a := getIngressAnnotations o in
  size a = 6
  ∧ a !! "kubernetes.io/ingress.class" = Some "traefik"
  ∧ a !! "traefik.ingress.kubernetes.io/router.entrypoints" = Some "web,websecure"
  ∧ a !! "acme.cert-manager.io/http01-ingress-class" = Some "traefik"
  ∧ a !! "traefik.ingress.kubernetes.io/router.tls" = Some "true"
  ∧ a !! "kubernetes.io/tls-acme" = Some "true"
  ∧ a !! "cert-manager.io/cluster-issuer" = Some "letsencrypt-prod".
Proof.
  intros Ht Htls a. subst a.
  unfold getIngressAnnotations, getTraefikHeadersAnnotations.
  rewrite Ht, Htls. cbv zeta.
  split.
  { repeat (rewrite map_size_insert_None by lookup_chain).
    by rewrite map_size_empty. }
  repeat split; lookup_chain.
Qed.

Lemma traefik_tls_annotations_witness :
  traefik traefikTLSOptions = true ∧ tls traefikTLSOptions = true
  ∧ size (getIngressAnnotations traefikTLSOptions) = 6.
Proof.
  split; [reflexivity|]. split; [reflexivity|].
  exact (proj1 (traefik_tls_annotations traefikTLSOptions eq_refl eq_refl)).
Defined.

(** X16: under the traefik flavor the generated annotations depend on the
    TLS flag alone: the header allow-list, the proxy-headers flag, the upload
    limit and every other field of the options have no effect. *)
Theorem traefik_depends_on_tls_only (o1 o2 : DeployIngressOptions) :
  traefik o1 = true → traefik o2 = true → tls o1 = tls o2 →
  getIngressAnnotations o1 = getIngressAnnotations o2.
Proof.
  intros H1 H2 Htls. unfold getIngressAnnotations.
  rewrite H1, H2. unfold getTraefikHeadersAnnotations. by rewrite Htls.
Qed.

Lemma traefik_depends_on_tls_only_witness :
  traefik traefikOptions = true ∧ traefik hostOverrideOptions = true
  ∧ tls traefikOptions = tls hostOverrideOptions
  ∧ proxyHeaders traefikOptions ≠ proxyHeaders hostOverrideOptions
  ∧ uploadLimit traefikOptions ≠ uploadLimit hostOverrideOptions
  ∧ getIngressAnnotations traefikOptions = getIngressAnnotations hostOverrideOptions.
Proof.
  split; [reflexivity|]. split; [reflexivity|]. split; [reflexivity|].
  split; [discriminate|]. split; [discriminate|].
  exact (traefik_depends_on_tls_only traefikOptions hostOverrideOptions
           eq_refl eq_refl eq_refl).
Defined.

(** X17: under the nginx flavor the class annotation is always nginx, and
    the TLS-ACME marker (true) and the cluster issuer (letsencrypt-prod) are
    present exactly when TLS is enabled, whatever the header policy and the
    upload limit are. *)
Theorem nginx_class_and_tls_markers (o : DeployIngressOptions) :
  traefik o = false →
  let a := getIngressAnnotations o in
  a !! "kubernetes.io/ingress.class" = Some "nginx"
  ∧ a !! "kubernetes.io/tls-acme" = (if tls o then Some "true" else None)
  ∧ a !! "cert-manager.io/cluster-issuer"
    = (if tls o then Some "letsencrypt-prod" else None).
Proof.
  intros Ht a. subst a. unfold getIngressAnnotations. rewrite Ht.
  rewrite nginx_annotations_unfold. cbv zeta.
  destruct (corsHeaders o), (proxyHeaders o), (tls o),
    (String.eqb (uploadLimit o) ""); repeat split; lookup_chain.
Qed.

Lemma nginx_class_and_tls_markers_witness :
  traefik sampleOptions = false
  ∧ getIngressAnnotations sampleOptions !! "kubernetes.io/ingress.class"
    = Some "nginx".
Proof.
  split; [reflexivity|].
  exact (proj1 (nginx_class_and_tls_markers sampleOptions eq_refl)).
Defined.

(** X18: under the nginx flavor the cors-allow-headers annotation is the
    allow-list followed, when [proxyHeaders] is set, by the five forwarding
    headers, joined with a comma and a space; it is present exactly when the
    allow-list is non-empty or [proxyHeaders] is set, so that an empty
    allow-list without [proxyHeaders] writes no such key. *)
Theorem nginx_cors_header_list (o : DeployIngressOptions) :
  traefik o = false →
  let a := getIngressAnnotations o in
  let hs :=
    (allowedHeaders o ++
       (if proxyHeaders o then
          ["X-Forwarded-For"; "X-Forwarded-Host"; "X-Forwarded-Server";
           "X-Real-IP"; "X-Requested-With"]
        else []))%list in
  a !! "nginx.ingress.kubernetes.io/cors-allow-headers"
    = match hs with
      | [] => None
      | _ :: _ => Some (strings_Join hs ", ")
      end
  ∧ (is_Some (a !! "nginx.ingress.kubernetes.io/cors-allow-headers")
     ↔ allowedHeaders o ≠ [] ∨ proxyHeaders o = true).
Proof.
  intros Ht a hs. subst a hs. fold extraHeaders. fold (corsHeaders o).
  unfold getIngressAnnotations. rewrite Ht.
  assert (Hlookup :
    getNginxHeadersAnnotations o !! "nginx.ingress.kubernetes.io/cors-allow-headers"
    = match corsHeaders o with
      | [] => None
      | _ :: _ => Some (strings_Join (corsHeaders o) ", ")
      end).
  { rewrite nginx_annotations_unfold. cbv zeta.
    destruct (corsHeaders o), (proxyHeaders o), (tls o),
      (String.eqb (uploadLimit o) ""); lookup_chain. }
  split; [exact Hlookup|]. rewrite Hlookup. unfold corsHeaders.
  destruct (allowedHeaders o) as [|h hs], (proxyHeaders o); cbn; split;
    try (intros [x Hx]; discriminate); try (intros _; by eexists);
    try (intros _; by (left + right));
    intros [H|H]; congruence.
Qed.

Lemma nginx_cors_header_list_witness :
  traefik forwardOnlyOptions = false
  ∧ allowedHeaders forwardOnlyOptions = []
  ∧ getIngressAnnotations forwardOnlyOptions
      !! "nginx.ingress.kubernetes.io/cors-allow-headers"
    = Some "X-Forwarded-For, X-Forwarded-Host, X-Forwarded-Server, X-Real-IP, X-Requested-With".
Proof.
  split; [reflexivity|]. split; [reflexivity|].
  exact (proj1 (nginx_cors_header_list forwardOnlyOptions eq_refl)).
Defined.

(** X19: under the nginx flavor, enable-cors (true), proxy-buffering (on)
    and proxy-buffer-size (256k) are present exactly when [proxyHeaders] is
    set, and proxy-body-size is the upload limit passed through unchanged,
    present exactly when the upload limit is non-empty; neither depends on
    the allow-list or on TLS. *)
Theorem nginx_policy_flags (o : DeployIngressOptions) :
  traefik o = false →
  let a := getIngressAnnotations o in
  a !! "nginx.ingress.kubernetes.io/enable-cors"
    = (if proxyHeaders o then Some "true" else None)
  ∧ a !! "nginx.ingress.kubernetes.io/proxy-buffering"
    = (if proxyHeaders o then Some "on" else None)
  ∧ a !! "nginx.ingress.kubernetes.io/proxy-buffer-size"
    = (if proxyHeaders o then Some "256k" else None)
  ∧ a !! "nginx.ingress.kubernetes.io/proxy-body-size"
    = (if String.eqb (uploadLimit o) "" then None else Some (uploadLimit o)).
Proof.
  intros Ht a. subst a. unfold getIngressAnnotations. rewrite Ht.
  rewrite nginx_annotations_unfold. cbv zeta.
  destruct (corsHeaders o), (proxyHeaders o), (tls o),
    (String.eqb (uploadLimit o) ""); repeat split; lookup_chain.
Qed.

Lemma nginx_policy_flags_witness :
  traefik allowListOptions = false
  ∧ getIngressAnnotations allowListOptions
      !! "nginx.ingress.kubernetes.io/proxy-body-size" = Some "1m".
Proof.
  split; [reflexivity|].
  exact (proj2 (proj2 (proj2 (nginx_policy_flags allowListOptions eq_refl)))).
Defined.

(** X20: the nginx strategy writes no key outside its eight annotations, and
    always writes the class key; in particular it never writes the traefik
    router keys. *)
Theorem nginx_keys_bounded (o : DeployIngressOptions) :
  traefik o = false →
  let a := getIngressAnnotations o in
  dom a ⊆ nginxKeys
  ∧ "kubernetes.io/ingress.class" ∈ dom a
  ∧ a !! "traefik.ingress.kubernetes.io/router.entrypoints" = None
  ∧ a !! "traefik.ingress.kubernetes.io/router.tls" = None
  ∧ a !! "acme.cert-manager.io/http01-ingress-class" = None.
Proof.
  intros Ht a. subst a. unfold getIngressAnnotations. rewrite Ht.
  rewrite nginx_annotations_unfold. cbv zeta. unfold nginxKeys.
  destruct (corsHeaders o), (proxyHeaders o), (tls o),
    (String.eqb (uploadLimit o) "");
    (split; [rewrite ?dom_insert_L, dom_empty_L; set_unfold; intros k; tauto|]);
    (split; [rewrite ?dom_insert_L, dom_empty_L; set_unfold; tauto|]);
    repeat split; lookup_chain.
Qed.

Lemma nginx_keys_bounded_witness :
  traefik sampleOptions = false
  ∧ dom (getIngressAnnotations sampleOptions) ⊆ nginxKeys.
Proof.
  split; [reflexivity|].
  exact (proj1 (nginx_keys_bounded sampleOptions eq_refl)).
Defined.
